(** * Swimming-spot map application (src/App.tsx)

    A shallow embedding of the React component [App]: its state hooks, its
    event handlers, its two effects and the marker colour derivation.

    The source file holds two revisions of the component.  The second one
    adds the [mapInitialized] / [mapError] state, the [try]/[catch] around
    the construction of the map and the guard of the marker effect; the
    handlers of the dialog are the same in both.  Definitions that differ
    between the revisions take the revision as a parameter. *)

From Stdlib Require Import Bool String ZArith Lia Floats DecimalString List.
From Stdlib Require DecimalPos DecimalZ.
Import ListNotations.

Local Open Scope string_scope.
Local Open Scope float_scope.
Local Open Scope list_scope.

(** ** JavaScript values

    A JavaScript [number] is an IEEE 754 binary64 value, which is what
    [PrimFloat.float] is.  [x > y] is [ltb] with its arguments swapped. *)

Definition number := float.

(** [x > y] *)
Definition gt (x y : number) : bool := (y <? x).

(** [x <= y] *)
Definition le (x y : number) : bool := (x <=? y).

Definition isNaN (x : number) : bool := negb (x =? x).

(** ToBoolean on a number: [NaN], [+0] and [-0] are falsy. *)
Definition truthyNumber (x : number) : bool := negb (x =? 0) && negb (isNaN x).

(** ToBoolean on a string: only the empty string is falsy. *)
Definition truthyString (s : string) : bool :=
  match s with
  | EmptyString => false
  | String _ _ => true
  end.

(** [s || fallback] on strings. *)
Definition orElse (s fallback : string) : string :=
  if truthyString s then s else fallback.

(** [Number(e.target.value)] on the value of the [type="number"] field.
    The value string of such a field is either empty or a valid numeral:
    [None] stands for the empty string, which [Number] turns into [0], and
    [Some x] for a numeral that denotes [x]. *)
Definition Number (value : option number) : number :=
  match value with
  | None => 0
  | Some x => x
  end.

(** [Date.now().toString()]: the decimal numeral of the clock reading, an
    integer number of milliseconds. *)
Definition toString (now : Z) : string := NilZero.string_of_int (Z.to_int now).

(** ** Data model *)

(** ['low' | 'medium' | 'high'] *)
Inductive Cleanliness := low | medium | high.

(** [interface SwimmingSpot].  The coordinates are copied from the draft
    through the non-null assertions [newSpot.longitude!] and
    [newSpot.latitude!], which are erased at run time: a stored record holds
    [undefined] there when the draft did, hence the [option]. *)
Record SwimmingSpot := mkSpot {
  id : string;
  name : string;
  transparency : number;
  cleanliness : Cleanliness;
  longitude : option number;
  latitude : option number
}.

(** [Partial<SwimmingSpot>]: every field may be absent. *)
Record PartialSpot := mkPartial {
  p_id : option string;
  p_name : option string;
  p_transparency : option number;
  p_cleanliness : option Cleanliness;
  p_longitude : option number;
  p_latitude : option number
}.

(** The object literal [{}]. *)
Definition emptyPartial : PartialSpot :=
  mkPartial None None None None None None.

(** [{ ...newSpot }]: spreading [null] yields no field. *)
Definition spread (newSpot : option PartialSpot) : PartialSpot :=
  match newSpot with
  | Some d => d
  | None => emptyPartial
  end.

Definition withName (d : PartialSpot) (v : string) : PartialSpot :=
  mkPartial (p_id d) (Some v) (p_transparency d) (p_cleanliness d)
            (p_longitude d) (p_latitude d).

Definition withTransparency (d : PartialSpot) (v : number) : PartialSpot :=
  mkPartial (p_id d) (p_name d) (Some v) (p_cleanliness d)
            (p_longitude d) (p_latitude d).

Definition withCleanliness (d : PartialSpot) (v : Cleanliness) : PartialSpot :=
  mkPartial (p_id d) (p_name d) (p_transparency d) (Some v)
            (p_longitude d) (p_latitude d).

(** ** Component state: the [useState] hooks

    [mapInitialized] and [mapError] exist in the second revision only; the
    first revision never writes them. *)
Record State := mkState {
  spots : list SwimmingSpot;
  newSpot : option PartialSpot;
  isDialogOpen : bool;
  mapInitialized : bool;
  mapError : option string
}.

Definition initialState : State := mkState [] None false false None.

(** A call of one of the state setters.  A handler is the list of the
    setter calls it makes, in order; React applies them together and then
    renders again. *)
Inductive SetState :=
| setSpots (v : list SwimmingSpot)
| setNewSpot (v : option PartialSpot)
| setIsDialogOpen (v : bool)
| setMapInitialized (v : bool)
| setMapError (v : option string).

Definition applySet (st : State) (u : SetState) : State :=
  match u with
  | setSpots v =>
      mkState v (newSpot st) (isDialogOpen st) (mapInitialized st) (mapError st)
  | setNewSpot v =>
      mkState (spots st) v (isDialogOpen st) (mapInitialized st) (mapError st)
  | setIsDialogOpen v =>
      mkState (spots st) (newSpot st) v (mapInitialized st) (mapError st)
  | setMapInitialized v =>
      mkState (spots st) (newSpot st) (isDialogOpen st) v (mapError st)
  | setMapError v =>
      mkState (spots st) (newSpot st) (isDialogOpen st) (mapInitialized st) v
  end.

Definition commit (calls : list SetState) (st : State) : State :=
  fold_left applySet calls st.

(** ** Marker colour *)

Definition getColorByTransparency (transparency : number) : string :=
  if gt transparency 10 then "#00ff00"
  else if gt transparency 5 then "#ffff00"
  else "#ff0000".

Definition green := "#00ff00".
Definition yellow := "#ffff00".
Definition red := "#ff0000".

(** ** Handlers of the dialog and of the map click *)

(** The click listener registered on the map. *)
Definition onMapClick (lng lat : number) : list SetState :=
  [ setNewSpot (Some (mkPartial None None None None (Some lng) (Some lat)));
    setIsDialogOpen true ].

Definition onNameChange (value : string) (st : State) : list SetState :=
  [ setNewSpot (Some (withName (spread (newSpot st)) value)) ].

Definition onTransparencyChange (value : option number) (st : State)
  : list SetState :=
  [ setNewSpot (Some (withTransparency (spread (newSpot st)) (Number value))) ].

Definition onCleanlinessChange (value : Cleanliness) (st : State)
  : list SetState :=
  [ setNewSpot (Some (withCleanliness (spread (newSpot st)) value)) ].

(** [onClick] of the Cancel button. *)
Definition onCancel : list SetState := [ setIsDialogOpen false ].

(** [onClose] of the dialog. *)
Definition onClose : list SetState := [ setIsDialogOpen false ].

(** [handleSaveSpot], with the clock reading of [Date.now()].  The guard
    [newSpot && newSpot.name && newSpot.transparency && newSpot.cleanliness]
    tests truthiness; each of the three cleanliness strings is truthy. *)
Definition handleSaveSpot (now : Z) (st : State) : list SetState :=
  match newSpot st with
  | None => []
  | Some d =>
      match p_name d, p_transparency d, p_cleanliness d with
      | Some n, Some t, Some c =>
          if truthyString n && truthyNumber t then
            let spot :=
              mkSpot (toString now) n t c (p_longitude d) (p_latitude d) in
            [ setSpots (spots st ++ [spot]);
              setIsDialogOpen false;
              setNewSpot None ]
          else []
      | _, _, _ => []
      end
  end.

(** The state after the Save button's handler has run. *)
Definition save (now : Z) (st : State) : State :=
  commit (handleSaveSpot now st) st.

(** The state after the Cancel button's handler has run. *)
Definition cancel (st : State) : State := commit onCancel st.

(** ** The map widget and the refs

    Of the third-party map only what the component does with it is kept:
    the markers attached with [addTo], in the order of attachment.  The
    component never calls [remove] on a marker. *)

(** The popup of a marker.  Its HTML is a template over these three values
    of the spot; they are kept apart instead of being formatted. *)
Record Popup := mkPopup {
  popup_offset : Z;
  popup_name : string;
  popup_transparency : number;
  popup_cleanliness : Cleanliness
}.

Record Marker := mkMarker {
  el_className : string;
  el_backgroundColor : string;
  lngLat : option number * option number;
  popup : Popup
}.

Record MapWidget := mkMap { markers : list Marker }.

(** [new mapboxgl.Map({...})] when it returns. *)
Definition newMap : MapWidget := mkMap [].

(** [marker.addTo(map)] *)
Definition addTo (mk : Marker) (m : MapWidget) : MapWidget :=
  mkMap (markers m ++ [mk]).

(** The [useRef] cells.  [mapInitializedRef] exists in the second revision
    only. *)
Record Refs := mkRefs {
  mapContainer : bool;
  map : option MapWidget;
  mapInitializedRef : bool
}.

(** At the first effect React has attached [mapContainer] to its element. *)
Definition initialRefs : Refs := mkRefs true None false.

Record App := mkApp { state : State; refs : Refs }.

Inductive Revision := Rev1 | Rev2.

(** What a [throw] carries: an [Error] with its message, or anything else. *)
Inductive Thrown := ThrownError (message : string) | ThrownOther.

(** The outcome of [new mapboxgl.Map({...})]. *)
Inductive Construction := Constructed | Throws (e : Thrown).

(** [initializeMap] of the second revision: the refs after it and the
    setter calls it made. *)
Definition initializeMap (ctor : Construction) (r : Refs)
  : Refs * list SetState :=
  if mapInitializedRef r || negb (mapContainer r) then (r, [])
  else
    match ctor with
    | Constructed =>
        (mkRefs (mapContainer r) (Some newMap) (mapInitializedRef r), [])
    | Throws e =>
        (r, [ setMapError
                (Some match e with
                      | ThrownError message => message
                      | ThrownOther => "An unknown error occurred"
                      end) ])
    end.

(** The first effect of the first revision.  Nothing catches what the
    constructor throws: [None] is the uncaught exception. *)
Definition initEffect1 (ctor : Construction) (r : Refs) : option Refs :=
  match map r with
  | Some _ => Some r
  | None =>
      match ctor with
      | Constructed =>
          Some (mkRefs (mapContainer r) (Some newMap) (mapInitializedRef r))
      | Throws _ => None
      end
  end.

(** The marker built for one spot in the body of [spots.forEach]. *)
Definition markerOf (spot : SwimmingSpot) : Marker :=
  mkMarker "marker"
           (getColorByTransparency (transparency spot))
           (longitude spot, latitude spot)
           (mkPopup 25 (name spot) (transparency spot) (cleanliness spot)).

(** [spots.forEach(spot => new mapboxgl.Marker(el)...addTo(map))] *)
Definition renderSpots (l : list SwimmingSpot) (m : MapWidget) : MapWidget :=
  fold_left (fun m spot => addTo (markerOf spot) m) l m.

(** The effect on [[spots]].  Without a map the second revision returns
    at its guard; the first calls [addTo(null)] for the first spot, which
    throws ([None]), and does nothing on an empty list. *)
Definition spotsEffect (rev : Revision) (l : list SwimmingSpot) (r : Refs)
  : option Refs :=
  match map r with
  | Some m =>
      Some (mkRefs (mapContainer r) (Some (renderSpots l m))
                   (mapInitializedRef r))
  | None =>
      match rev, l with
      | Rev2, _ => Some r
      | Rev1, [] => Some r
      | Rev1, _ :: _ => None
      end
  end.

(** Mounting the component: the initial render, then the two effects in
    order.  [None] is an uncaught exception. *)
Definition mount (rev : Revision) (ctor : Construction) : option App :=
  match rev with
  | Rev1 =>
      match initEffect1 ctor initialRefs with
      | Some r =>
          option_map (mkApp initialState) (spotsEffect Rev1 [] r)
      | None => None
      end
  | Rev2 =>
      let (r, calls) := initializeMap ctor initialRefs in
      option_map (mkApp (commit calls initialState)) (spotsEffect Rev2 [] r)
  end.

(** ** Events *)

Inductive Event :=
| MapLoad
| MapError (message : string)
| MapClick (lng lat : number)
| NameChange (value : string)
| TransparencyChange (value : option number)
| CleanlinessChange (value : Cleanliness)
| CancelClick
| DialogClose
| SaveClick (now : Z).

(** The handler of an event: the refs after it and its setter calls.  The
    first revision registers no [load] and no [error] listener. *)
Definition handle (rev : Revision) (ev : Event) (app : App)
  : Refs * list SetState :=
  let st := state app in
  let r := refs app in
  match ev with
  | MapLoad =>
      match rev with
      | Rev1 => (r, [])
      | Rev2 =>
          (mkRefs (mapContainer r) (map r) true, [ setMapInitialized true ])
      end
  | MapError message =>
      match rev with
      | Rev1 => (r, [])
      | Rev2 =>
          (r, [ setMapError (Some (orElse message "An unknown error occurred")) ])
      end
  | MapClick lng lat => (r, onMapClick lng lat)
  | NameChange value => (r, onNameChange value st)
  | TransparencyChange value => (r, onTransparencyChange value st)
  | CleanlinessChange value => (r, onCleanlinessChange value st)
  | CancelClick => (r, onCancel)
  | DialogClose => (r, onClose)
  | SaveClick now => (r, handleSaveSpot now st)
  end.

(** Whether the dialog has been opened since the mount.  The click that
    opens it sets the draft, and only a save that stores a spot resets the
    draft: the dialog has been opened exactly when it is open, or there is a
    draft, or there is a stored spot. *)
Definition dialogOpened (st : State) : bool :=
  isDialogOpen st
  || match newSpot st with
     | Some _ => true
     | None => false
     end
  || match spots st with
     | [] => false
     | _ :: _ => true
     end.

(** Whether the event can reach its handler.  The map listeners hang on the
    map object.  The fields and the buttons are children of
    [<Dialog open={isDialogOpen}>]: the dialog mounts them when it opens and
    keeps them in the document through its exit transition, so that after a
    close their events still arrive while [isDialogOpen] is already false.
    There is no clock here: once the dialog has been opened, an event of one
    of its children may arrive at any time. *)
Definition listening (ev : Event) (app : App) : bool :=
  match ev with
  | MapLoad | MapError _ | MapClick _ _ =>
      match map (refs app) with
      | Some _ => true
      | None => false
      end
  | _ => dialogOpened (state app)
  end.

Definition isSetSpots (u : SetState) : bool :=
  match u with
  | setSpots _ => true
  | _ => false
  end.

(** One turn of the event loop: the handler, the commit of its setter
    calls, the render, and the effect on [[spots]] when that dependency
    changed.  Every [setSpots] of the component passes a newly built array,
    so the dependency changed exactly when [setSpots] was called. *)
Definition dispatch (rev : Revision) (ev : Event) (app : App) : option App :=
  if listening ev app then
    let (r, calls) := handle rev ev app in
    let st := commit calls (state app) in
    if existsb isSetSpots calls then
      option_map (mkApp st) (spotsEffect rev (spots st) r)
    else Some (mkApp st r)
  else Some app.

Fixpoint run (rev : Revision) (evs : list Event) (app : App) : option App :=
  match evs with
  | [] => Some app
  | ev :: evs' =>
      match dispatch rev ev app with
      | Some app' => run rev evs' app'
      | None => None
      end
  end.

(** Whether the event is a save that passes the guard of [handleSaveSpot]. *)
Definition savesSpot (ev : Event) (app : App) : bool :=
  match ev with
  | SaveClick now =>
      listening ev app && existsb isSetSpots (handleSaveSpot now (state app))
  | _ => false
  end.



(** The markers on the map, none when there is no map. *)
Definition attached (app : App) : list Marker :=
  match map (refs app) with
  | Some m => markers m
  | None => []
  end.

(** ** Predicates of the specification *)

Definition isSome {A : Type} (o : option A) : bool :=
  match o with
  | Some _ => true
  | None => false
  end.

(** Every field the save needs is present in the draft, as a field of a
    [Partial<SwimmingSpot>] is present: it is defined. *)
Definition fieldsPresent (d : PartialSpot) : bool :=
  isSome (p_name d) && isSome (p_transparency d) && isSome (p_cleanliness d)
  && isSome (p_longitude d) && isSome (p_latitude d).

(** There is a draft, its name is a non-empty string, its transparency a
    number other than [0] and [NaN], and its cleanliness is chosen. *)
Definition requiredTruthy (o : option PartialSpot) : bool :=
  match o with
  | None => false
  | Some d =>
      match p_name d with Some n => truthyString n | None => false end
      && match p_transparency d with Some t => truthyNumber t | None => false end
      && isSome (p_cleanliness d)
  end.

(** The record a save builds from a draft that passes the guard. *)
Definition spotOf (now : Z) (d : PartialSpot) : option SwimmingSpot :=
  match p_name d, p_transparency d, p_cleanliness d with
  | Some n, Some t, Some c =>
      Some (mkSpot (toString now) n t c (p_longitude d) (p_latitude d))
  | _, _, _ => None
  end.


(** The part of the state that the dialog and the spot list make up. *)
Definition ui (st : State) : list SwimmingSpot * option PartialSpot * bool :=
  (spots st, newSpot st, isDialogOpen st).

(** ** States used as examples *)

(** A draft in which all five fields are present and the transparency
    typed is [0]. *)
Definition draftZero : PartialSpot :=
  mkPartial None (Some "Lake A") (Some 0) (Some high) (Some 24.5) (Some 60.25).

(** The draft of the specification's example: "Lake A", 12, high. *)
Definition draftLakeA : PartialSpot :=
  mkPartial None (Some "Lake A") (Some 12) (Some high) (Some 24.5) (Some 60.25).

(** The dialog open on [draftLakeA], after a click and three edits. *)
Definition editingLakeA : State := mkState [] (Some draftLakeA) true false None.

(** A draft whose name field was typed in and emptied again. *)
Definition draftNoName : PartialSpot :=
  mkPartial None (Some "") (Some 12) (Some high) (Some 24.5) (Some 60.25).

(** The dialog open on [draftNoName]. *)
Definition editingNoName : State :=
  mkState [] (Some draftNoName) true false None.

(** The dialog open on [draftZero]. *)
Definition editingZero : State := mkState [] (Some draftZero) true false None.

(** A mounted component with its map, the dialog open on [draftLakeA]. *)
Definition appEditingLakeA : App := mkApp editingLakeA (mkRefs true (Some newMap) false).

(** Filling the dialog after a click at [(lng, lat)] and saving. *)
Definition addSpot (lng lat : number) (n : string) (t : number)
  (c : Cleanliness) (now : Z) : list Event :=
  [ MapClick lng lat; NameChange n; TransparencyChange (Some t);
    CleanlinessChange c; SaveClick now ].

(** A session: two spots saved, then a draft that is cancelled, then a
    save that the guard rejects, then a third spot. *)
Definition session : list Event :=
  addSpot 24.5 60.25 "Lake A" 12 high 1700000000000
  ++ addSpot 25 61 "Pond B" 7 medium 1700000001000
  ++ [ MapClick 1 2; NameChange "Gone"; CancelClick ]
  ++ [ MapClick 3 4; NameChange "Zero"; TransparencyChange None;
       CleanlinessChange low; SaveClick 1700000002000; DialogClose ]
  ++ addSpot 26 62 "Bay C" 3 low 1700000003000.

(** The component mounted with its map, in either revision. *)
Definition mounted : App := mkApp initialState (mkRefs true (Some newMap) false).

(** The component after the session. *)
Definition afterSession : App :=
  Eval vm_compute in
    match run Rev2 session mounted with
    | Some app => app
    | None => mounted
    end.


(** A component whose map has loaded and has reported an error. *)
Definition loadedWithError : App :=
  mkApp (mkState [] None false true (Some "Style not found"))
        (mkRefs true (Some newMap) true).

(** That component after the session. *)
Definition loadedWithErrorAfterSession : App :=
  Eval vm_compute in
    match run Rev2 session loadedWithError with
    | Some app => app
    | None => loadedWithError
    end.

(** ** Invariants *)

(** Without a map the dialog has never been opened: only a click on the
    map opens it. *)
Definition closedWithoutMap (app : App) : Prop :=
  map (refs app) = None -> dialogOpened (state app) = false.

(** Whether the event, if it is one of a child of the dialog, arrives while
    the dialog is open, and not during the exit transition after a close. *)
Definition arrivesWhileOpen (ev : Event) (app : App) : bool :=
  match ev with
  | MapLoad | MapError _ | MapClick _ _ => true
  | _ => isDialogOpen (state app)
  end.

(** Whether each event of the run arrives while the dialog is open. *)
Fixpoint allWhileOpen (rev : Revision) (evs : list Event) (app : App) : bool :=
  match evs with
  | [] => true
  | ev :: evs' =>
      arrivesWhileOpen ev app
      && match dispatch rev ev app with
         | Some app' => allWhileOpen rev evs' app'
         | None => true
         end
  end.

(** The draft of an open dialog and every stored record hold both
    coordinates: the draft gets them from the click that opened the dialog,
    and the record from the draft. *)
Definition hasCoordinates (lng lat : option number) : Prop :=
  isSome lng = true /\ isSome lat = true.

Definition coordinatesKnown (app : App) : Prop :=
  (isDialogOpen (state app) = true ->
   exists d,
     newSpot (state app) = Some d
     /\ hasCoordinates (p_longitude d) (p_latitude d))
  /\ Forall (fun s => hasCoordinates (longitude s) (latitude s))
            (spots (state app)).

(** What the guard of the save establishes for a stored record. *)
Definition storedOk (s : SwimmingSpot) : Prop :=
  name s <> "" /\ (transparency s =? 0) = false /\ isNaN (transparency s) = false.

(** ** The controlled fields of the dialog *)

(** [value={newSpot?.name || ''}] *)
Definition nameValue (st : State) : string :=
  match newSpot st with
  | Some d =>
      match p_name d with
      | Some n => orElse n ""
      | None => ""
      end
  | None => ""
  end.

(** [value={newSpot?.transparency || ''}]: the number shown, [None] for
    the empty string. *)
Definition transparencyValue (st : State) : option number :=
  match newSpot st with
  | Some d =>
      match p_transparency d with
      | Some t => if truthyNumber t then Some t else None
      | None => None
      end
  | None => None
  end.

(** [value={newSpot?.cleanliness || ''}]: the item selected, [None] for the
    empty string. *)
Definition cleanlinessValue (st : State) : option Cleanliness :=
  match newSpot st with
  | Some d => p_cleanliness d
  | None => None
  end.

(** The state after the [onChange] of the name field has run. *)
Definition editName (value : string) (st : State) : State :=
  commit (onNameChange value st) st.

(** The state after the [onChange] of the transparency field has run. *)
Definition editTransparency (value : option number) (st : State) : State :=
  commit (onTransparencyChange value st) st.

(** The state after the [onChange] of the cleanliness select has run. *)
Definition editCleanliness (value : Cleanliness) (st : State) : State :=
  commit (onCleanlinessChange value st) st.

(** ** Teardown of the map effect *)

(** The function the map effect returns: the refs after it, and whether it
    called [remove()] on the map.  The first revision calls
    [map.current?.remove()]; the second removes the map only once the [load]
    event has set [mapInitializedRef], and resets that ref.  Neither clears
    [map.current]. *)
Definition cleanup (rev : Revision) (r : Refs) : Refs * bool :=
  match rev with
  | Rev1 => (r, isSome (map r))
  | Rev2 =>
      match map r with
      | Some _ =>
          if mapInitializedRef r
          then (mkRefs (mapContainer r) (map r) false, true)
          else (r, false)
      | None => (r, false)
      end
  end.

(** The map effect run once more after its teardown, as React does when it
    mounts the component again: the refs and the setter calls of the second
    run (or the uncaught exception), and whether the teardown removed the
    old map. *)
Definition remount (rev : Revision) (ctor : Construction) (r : Refs)
  : option (Refs * list SetState) * bool :=
  let (r', removed) := cleanup rev r in
  match rev with
  | Rev1 => (option_map (fun r'' => (r'', [])) (initEffect1 ctor r'), removed)
  | Rev2 => (Some (initializeMap ctor r'), removed)
  end.

(** ** Observations on a run *)

(** The clock readings of the successful saves of a run, in order. *)
Fixpoint saveClocks (rev : Revision) (evs : list Event) (app : App) : list Z :=
  match evs with
  | [] => []
  | ev :: evs' =>
      match ev with
      | SaveClick now => if savesSpot ev app then [now] else []
      | _ => []
      end
      ++ match dispatch rev ev app with
         | Some app' => saveClocks rev evs' app'
         | None => []
         end
  end.


(** The bands in the order of the colours, for comparing two markers. *)
Definition colorRank (color : string) : nat :=
  if String.eqb color red then 0%nat
  else if String.eqb color yellow then 1%nat
  else 2%nat.

(** Whether the event is a [load] that its listener handles: the second
    revision on an existing map. *)
Definition loads (rev : Revision) (ev : Event) (app : App) : bool :=
  match rev, ev with
  | Rev2, MapLoad => isSome (map (refs app))
  | _, _ => false
  end.

(** Whether the event is an [error] that its listener handles. *)
Definition reportsError (rev : Revision) (ev : Event) (app : App) : bool :=
  match rev, ev with
  | Rev2, MapError _ => isSome (map (refs app))
  | _, _ => false
  end.

Definition isMapLoad (ev : Event) : bool :=
  match ev with
  | MapLoad => true
  | _ => false
  end.

Definition isMapError (ev : Event) : bool :=
  match ev with
  | MapError _ => true
  | _ => false
  end.

(** Whether the listeners of the map, which only the second revision
    registers and only on an existing map, handle one of the events. *)
Definition mapHandles (rev : Revision) (app : App) (p : Event -> bool)
  (evs : list Event) : bool :=
  match rev with
  | Rev1 => false
  | Rev2 => isSome (map (refs app)) && existsb p evs
  end.

(** The map state of the second revision agrees with its ref, and a
    loaded map exists. *)
Definition mapStatusConsistent (app : App) : Prop :=
  mapInitialized (state app) = mapInitializedRef (refs app)
  /\ (mapInitialized (state app) = true -> map (refs app) <> None).

(** * Properties *)

(** ** Order facts on binary64 values, from the specification of the
    primitive comparisons *)

Lemma SFcompare_swap (x y : spec_float) :
  SFcompare y x = option_map CompOpp (SFcompare x y).
Proof.
  destruct x as [sx|sx| |sx mx ex], y as [sy|sy| |sy my ey]; simpl;
    try reflexivity;
    try (destruct sx; reflexivity);
    try (destruct sy; reflexivity);
    try (destruct sx, sy; reflexivity).
  destruct sx, sy; simpl; try reflexivity;
    rewrite (Z.compare_antisym ex ey);
    destruct (ex ?= ey)%Z; simpl; try reflexivity;
    rewrite (Pos.compare_cont_antisym mx my Eq); simpl;
    try rewrite CompOpp_involutive; reflexivity.
Qed.

Lemma gt_not_nan (x a : number) : gt x a = true -> isNaN x = false.
Proof.
  unfold gt, isNaN. rewrite ltb_spec, eqb_spec. unfold SFltb, SFeqb.
  destruct (Prim2SF a) as [sa|sa| |sa ma ea],
           (Prim2SF x) as [sx|sx| |sx mx ex]; simpl; try discriminate;
    intros _; try reflexivity; try (destruct sx; reflexivity).
  all: destruct sx; rewrite Z.compare_refl, Pos.compare_cont_refl;
    reflexivity.
Qed.

Lemma le_is_not_gt (x y : number) :
  isNaN x = false -> isNaN y = false -> le x y = negb (gt x y).
Proof.
  unfold isNaN, le, gt. rewrite !eqb_spec, leb_spec, ltb_spec.
  unfold SFeqb, SFleb, SFltb. rewrite (SFcompare_swap (Prim2SF x) (Prim2SF y)).
  destruct (Prim2SF x) as [sx|sx| |sx mx ex],
           (Prim2SF y) as [sy|sy| |sy my ey]; simpl; try discriminate;
    intros _ _;
    try reflexivity;
    try (destruct sx; reflexivity);
    try (destruct sy; reflexivity);
    try (destruct sx, sy; reflexivity).
  destruct sx, sy; simpl; try reflexivity;
    destruct (ex ?= ey)%Z; simpl; try reflexivity;
    destruct (Pos.compare_cont Eq mx my); reflexivity.
Qed.

Lemma truthyNumber_true (x : number) :
  truthyNumber x = true -> (x =? 0) = false /\ isNaN x = false.
Proof.
  unfold truthyNumber. intros H. apply andb_prop in H. destruct H as [H0 Hn].
  split; [destruct (x =? 0) | destruct (isNaN x)];
    simpl in *; congruence.
Qed.

Lemma truthyString_true (s : string) : truthyString s = true -> s <> "".
Proof. destruct s; simpl; [discriminate | intros _ H; discriminate H]. Qed.

(** ** The marker colour *)

(** C2: the colour of a transparency [t] is green when [t > 10], yellow when
    [5 < t <= 10] and red in every other case (among them [NaN]); 12 gives
    green, 7 yellow and 3 red. *)
Theorem getColorByTransparency_bands :
  (forall t : number,
      getColorByTransparency t =
      if gt t 10 then green
      else if gt t 5 && le t 10 then yellow
      else red)
  /\ getColorByTransparency 12 = green
  /\ getColorByTransparency 7 = yellow
  /\ getColorByTransparency 3 = red.
Proof.
  split; [| repeat split; reflexivity].
  intros t. unfold getColorByTransparency, green, yellow, red.
  destruct (gt t 10) eqn:H10; [reflexivity|].
  destruct (gt t 5) eqn:H5; [|reflexivity].
  rewrite le_is_not_gt, H10; [reflexivity| |reflexivity].
  exact (gt_not_nan t 5 H5).
Qed.

(** ** The save handler *)

Lemma handleSaveSpot_cases (now : Z) (st : State) :
  (requiredTruthy (newSpot st) = true /\
   exists d s,
     newSpot st = Some d /\ spotOf now d = Some s /\
     truthyString (name s) = true /\ truthyNumber (transparency s) = true /\
     handleSaveSpot now st =
     [ setSpots (spots st ++ [s]); setIsDialogOpen false; setNewSpot None ])
  \/ (requiredTruthy (newSpot st) = false /\ handleSaveSpot now st = []).
Proof.
  unfold handleSaveSpot, requiredTruthy.
  destruct (newSpot st) as [d|]; [|right; split; reflexivity].
  destruct (p_name d) as [n|] eqn:En; [|right; split; reflexivity].
  destruct (p_transparency d) as [t|] eqn:Et;
    [|right; split; [apply andb_false_intro1, andb_false_r | reflexivity]].
  destruct (p_cleanliness d) as [c|] eqn:Ec;
    [|right; split; [apply andb_false_r | reflexivity]].
  simpl isSome. rewrite andb_true_r.
  destruct (truthyString n && truthyNumber t) eqn:G.
  - left. split; [reflexivity|].
    apply andb_prop in G. destruct G as [Gn Gt].
    exists d, (mkSpot (toString now) n t c (p_longitude d) (p_latitude d)).
    unfold spotOf. rewrite En, Et, Ec.
    repeat split; try assumption; reflexivity.
  - right. split; reflexivity.
Qed.

Lemma save_rejected (now : Z) (st : State) :
  requiredTruthy (newSpot st) = false -> save now st = st.
Proof.
  intros G. unfold save.
  destruct (handleSaveSpot_cases now st) as [[G' _]|[_ E]]; [congruence|].
  rewrite E. reflexivity.
Qed.

Lemma save_accepted (now : Z) (st : State) :
  requiredTruthy (newSpot st) = true ->
  exists d s,
    newSpot st = Some d /\ spotOf now d = Some s /\
    truthyString (name s) = true /\ truthyNumber (transparency s) = true /\
    save now st =
    mkState (spots st ++ [s]) None false (mapInitialized st) (mapError st).
Proof.
  intros G. unfold save.
  destruct (handleSaveSpot_cases now st)
    as [[_ (d & s & Hd & Hs & Hn & Ht & E)]|[G' _]]; [|congruence].
  exists d, s. rewrite E. repeat split; assumption.
Qed.

(** C1, as stated, fails: every field of [draftZero] is present, and the
    save appends nothing. *)
Lemma save_all_present_counterexample :
  fieldsPresent draftZero = true
  /\ spots (save 1700000000000 (mkState [] (Some draftZero) true false None)) = []
  /\ save 1700000000000 (mkState [] (Some draftZero) true false None)
     = mkState [] (Some draftZero) true false None.
Proof. repeat split; reflexivity. Qed.

(** C1 (amended): a save appends exactly one record, built from the draft,
    when there is a draft whose name is a non-empty string, whose
    transparency is a number other than 0 and NaN and whose cleanliness is
    chosen; the coordinates are copied without a test.  In every other case
    the spot list stays as it was. *)
Theorem save_appends_iff_truthy (now : Z) (st : State) :
  (requiredTruthy (newSpot st) = true ->
   exists d s,
     newSpot st = Some d /\ spotOf now d = Some s /\
     longitude s = p_longitude d /\ latitude s = p_latitude d /\
     spots (save now st) = spots st ++ [s])
  /\ (requiredTruthy (newSpot st) = false -> spots (save now st) = spots st).
Proof.
  split; intros G.
  - destruct (save_accepted now st G) as (d & s & Hd & Hs & _ & _ & E).
    exists d, s. rewrite E. repeat split; try assumption.
    + unfold spotOf in Hs.
      destruct (p_name d), (p_transparency d), (p_cleanliness d);
        try discriminate.
      injection Hs as <-. reflexivity.
    + unfold spotOf in Hs.
      destruct (p_name d), (p_transparency d), (p_cleanliness d);
        try discriminate.
      injection Hs as <-. reflexivity.
  - rewrite (save_rejected now st G). reflexivity.
Qed.

(** The example of the specification: "Lake A", 12, high is appended, alone,
    and a draft without a name is not. *)
Lemma save_appends_iff_truthy_witness :
  (exists d s,
      Some draftLakeA = Some d /\ spotOf 1700000000000 d = Some s /\
      longitude s = p_longitude d /\ latitude s = p_latitude d /\
      spots (save 1700000000000 (mkState [] (Some draftLakeA) true false None))
      = [] ++ [s])
  /\ spots (save 1700000000000
              (mkState [] (Some (mkPartial None None (Some 12) (Some high)
                                           (Some 24.5) (Some 60.25)))
                       true false None)) = [].
Proof.
  split.
  - exact (proj1 (save_appends_iff_truthy 1700000000000
                    (mkState [] (Some draftLakeA) true false None))
                 eq_refl).
  - exact (proj2 (save_appends_iff_truthy 1700000000000
                    (mkState [] (Some (mkPartial None None (Some 12) (Some high)
                                                 (Some 24.5) (Some 60.25)))
                             true false None))
                 eq_refl).
Defined.

(** C10: a save whose guard fails leaves the whole state as it was, the
    dialog flag and the draft included; a save whose guard passes appends
    the record, closes the dialog and resets the draft to [null] in one
    step, and touches nothing else. *)
Theorem save_atomic (now : Z) (st : State) :
  (requiredTruthy (newSpot st) = false ->
   save now st = st
   /\ spots (save now st) = spots st
   /\ newSpot (save now st) = newSpot st
   /\ isDialogOpen (save now st) = isDialogOpen st)
  /\ (requiredTruthy (newSpot st) = true ->
      isDialogOpen (save now st) = false
      /\ newSpot (save now st) = None
      /\ (exists s, spots (save now st) = spots st ++ [s])
      /\ mapInitialized (save now st) = mapInitialized st
      /\ mapError (save now st) = mapError st).
Proof.
  split; intros G.
  - rewrite (save_rejected now st G). repeat split; reflexivity.
  - destruct (save_accepted now st G) as (d & s & _ & _ & _ & _ & E).
    rewrite E. simpl. repeat split; try reflexivity. exists s. reflexivity.
Qed.

(** A failed save on an open dialog keeps it open; the save of "Lake A"
    closes it and drops the draft. *)
Lemma save_atomic_witness :
  (save 5 (mkState [] (Some draftZero) true false None)
   = mkState [] (Some draftZero) true false None
   /\ spots (save 5 (mkState [] (Some draftZero) true false None)) = []
   /\ newSpot (save 5 (mkState [] (Some draftZero) true false None))
      = Some draftZero
   /\ isDialogOpen (save 5 (mkState [] (Some draftZero) true false None)) = true)
  /\ (isDialogOpen (save 5 (mkState [] (Some draftLakeA) true false None)) = false
      /\ newSpot (save 5 (mkState [] (Some draftLakeA) true false None)) = None
      /\ (exists s,
             spots (save 5 (mkState [] (Some draftLakeA) true false None))
             = [] ++ [s])
      /\ mapInitialized (save 5 (mkState [] (Some draftLakeA) true false None))
         = false
      /\ mapError (save 5 (mkState [] (Some draftLakeA) true false None)) = None).
Proof.
  split.
  - exact (proj1 (save_atomic 5 (mkState [] (Some draftZero) true false None))
                 eq_refl).
  - exact (proj2 (save_atomic 5 (mkState [] (Some draftLakeA) true false None))
                 eq_refl).
Defined.

(** ** Cancel and the map click *)

(** C4: the code does not discard the draft on cancel.  The handler of the
    Cancel button closes the dialog and leaves the draft in the state, where
    the save handler resets it to [null] when it closes the dialog.  The
    buttons of the dialog stay in the document through its exit transition:
    a click on Save that arrives after the click on Cancel finds the
    cancelled draft and stores it as a spot. *)
Theorem cancel_leaves_draft_savable (rev : Revision) (app : App)
  (m : MapWidget) (d : PartialSpot) (now : Z) :
  map (refs app) = Some m ->
  isDialogOpen (state app) = true ->
  newSpot (state app) = Some d ->
  requiredTruthy (Some d) = true ->
  isDialogOpen (cancel (state app)) = false
  /\ newSpot (cancel (state app)) = Some d
  /\ exists app' s,
      run rev [CancelClick; SaveClick now] app = Some app'
      /\ spotOf now d = Some s
      /\ spots (state app') = spots (state app) ++ [s].
Proof.
  intros Hm Ho Hd G. split; [reflexivity|]. split; [exact Hd|].
  assert (G' : requiredTruthy (newSpot (cancel (state app))) = true)
    by (simpl; rewrite Hd; exact G).
  destruct (handleSaveSpot_cases now (cancel (state app)))
    as [[_ (d' & s & Hd' & Hs & _ & _ & E)]|[G'' _]]; [|congruence].
  simpl in Hd'. rewrite Hd in Hd'. injection Hd' as <-.
  assert (D1 : dispatch rev CancelClick app
               = Some (mkApp (cancel (state app)) (refs app))).
  { unfold dispatch.
    replace (listening CancelClick app) with true; [reflexivity|].
    unfold listening, dialogOpened. rewrite Ho. reflexivity. }
  assert (D2 : exists app',
             dispatch rev (SaveClick now) (mkApp (cancel (state app)) (refs app))
             = Some app'
             /\ spots (state app') = spots (state app) ++ [s]).
  { unfold dispatch.
    replace (listening (SaveClick now) (mkApp (cancel (state app)) (refs app)))
      with true
      by (unfold listening, dialogOpened; simpl; rewrite Hd; reflexivity).
    cbn [handle state refs]. rewrite E. cbn [existsb isSetSpots orb].
    unfold spotsEffect. rewrite Hm. simpl. eexists. split; reflexivity. }
  destruct D2 as (app' & D2 & Hs').
  exists app', s. cbn [run]. rewrite D1, D2.
  split; [reflexivity|]. split; [exact Hs | exact Hs'].
Qed.

(** The draft of "Lake A", cancelled and then saved. *)
Lemma cancel_leaves_draft_savable_witness :
  isDialogOpen (cancel (state appEditingLakeA)) = false
  /\ newSpot (cancel (state appEditingLakeA)) = Some draftLakeA
  /\ exists app' s,
      run Rev2 [CancelClick; SaveClick 1700000000000] appEditingLakeA
      = Some app'
      /\ spotOf 1700000000000 draftLakeA = Some s
      /\ spots (state app') = spots (state appEditingLakeA) ++ [s].
Proof.
  exact (cancel_leaves_draft_savable Rev2 appEditingLakeA newMap draftLakeA
           1700000000000 eq_refl eq_refl eq_refl eq_refl).
Defined.

(** C5: cancel leaves the spot list exactly as it was, whatever the state
    and the draft; so does the whole turn of the event loop that handles
    the click on Cancel, which leaves the markers alone as well. *)
Theorem cancel_keeps_spots (rev : Revision) (app : App) :
  spots (cancel (state app)) = spots (state app)
  /\ exists app',
      dispatch rev CancelClick app = Some app'
      /\ spots (state app') = spots (state app)
      /\ attached app' = attached app.
Proof.
  split; [reflexivity|].
  unfold dispatch. simpl.
  destruct (dialogOpened (state app)); eexists; repeat split; reflexivity.
Qed.

(** C7: a click on the map at [(lng, lat)] sets the draft to the record
    whose longitude is [lng], whose latitude is [lat] and which has no
    other field, and opens the dialog; the spot list and the map are left
    alone. *)
Theorem map_click_opens_dialog (rev : Revision) (lng lat : number) (app : App)
  (m : MapWidget) :
  map (refs app) = Some m ->
  exists app',
    dispatch rev (MapClick lng lat) app = Some app'
    /\ newSpot (state app')
       = Some (mkPartial None None None None (Some lng) (Some lat))
    /\ isDialogOpen (state app') = true
    /\ spots (state app') = spots (state app)
    /\ refs app' = refs app.
Proof.
  intros Hm. unfold dispatch. simpl. rewrite Hm. simpl.
  eexists; repeat split; reflexivity.
Qed.

(** A click at (24.5, 60.25) while an older draft is still in the state:
    nothing of that draft is left. *)
Lemma map_click_opens_dialog_witness :
  exists app',
    dispatch Rev2 (MapClick 24.5 60.25) appEditingLakeA = Some app'
    /\ newSpot (state app')
       = Some (mkPartial None None None None (Some 24.5) (Some 60.25))
    /\ isDialogOpen (state app') = true
    /\ spots (state app') = spots (state appEditingLakeA)
    /\ refs app' = refs appEditingLakeA.
Proof.
  exact (map_click_opens_dialog Rev2 24.5 60.25 appEditingLakeA newMap eq_refl).
Defined.

(** ** One turn of the event loop *)


(** A handler either calls no [setSpots] and leaves the list alone, or is
    a save that passed its guard and appends one record. *)
Lemma handle_spots (rev : Revision) (ev : Event) (app : App) :
  (existsb isSetSpots (snd (handle rev ev app)) = false
   /\ spots (commit (snd (handle rev ev app)) (state app)) = spots (state app))
  \/ (exists now s,
         ev = SaveClick now
         /\ existsb isSetSpots (snd (handle rev ev app)) = true
         /\ storedOk s
         /\ spots (commit (snd (handle rev ev app)) (state app))
            = spots (state app) ++ [s]).
Proof.
  destruct ev; try (left; split; reflexivity);
    try (destruct rev; left; split; reflexivity).
  simpl. destruct (handleSaveSpot_cases now (state app))
    as [[_ (d & s & _ & _ & Hn & Ht & E)]|[_ E]]; rewrite E.
  - right. exists now, s. repeat split; try reflexivity.
    + exact (truthyString_true _ Hn).
    + exact (proj1 (truthyNumber_true _ Ht)).
    + exact (proj2 (truthyNumber_true _ Ht)).
  - left. split; reflexivity.
Qed.

Lemma renderSpots_markers (l : list SwimmingSpot) (m : MapWidget) :
  markers (renderSpots l m) = markers m ++ List.map markerOf l.
Proof.
  unfold renderSpots. revert m.
  induction l as [|spot l IH]; intros m; simpl.
  - symmetry. apply app_nil_r.
  - rewrite IH. simpl. rewrite <- app_assoc. reflexivity.
Qed.

Lemma savesSpot_not_listening (ev : Event) (app : App) :
  listening ev app = false -> savesSpot ev app = false.
Proof.
  destruct ev; try reflexivity. unfold savesSpot. intros ->. reflexivity.
Qed.


(** What a turn does to the spot list, whenever it returns. *)
Lemma dispatch_spots (rev : Revision) (ev : Event) (app app' : App) :
  dispatch rev ev app = Some app' ->
  spots (state app') = spots (state app)
  \/ exists s, storedOk s /\ spots (state app') = spots (state app) ++ [s].
Proof.
  unfold dispatch. destruct (listening ev app).
  2:{ intros [= <-]. left. reflexivity. }
  pose proof (handle_spots rev ev app) as H.
  destruct (handle rev ev app) as [r calls]. simpl in H.
  destruct H as [[E Hs]|(now & s & _ & E & Hok & Hs)]; rewrite E.
  - intros [= <-]. left. exact Hs.
  - destruct (spotsEffect rev _ r); simpl; [|discriminate].
    intros [= <-]. right. exists s. split; assumption.
Qed.


Lemma mount_initial (rev : Revision) (ctor : Construction) (app0 : App) :
  mount rev ctor = Some app0 ->
  closedWithoutMap app0
  /\ spots (state app0) = []
  /\ newSpot (state app0) = None
  /\ isDialogOpen (state app0) = false
  /\ attached app0 = [].
Proof.
  destruct rev, ctor as [|[msg|]]; simpl; try discriminate;
    intros [= <-]; repeat split.
Qed.

(** ** Runs of the event loop *)



Lemma run_spots (rev : Revision) (evs : list Event) :
  forall app app',
    run rev evs app = Some app' ->
    exists added,
      spots (state app') = spots (state app) ++ added
      /\ (length added <= length evs)%nat
      /\ Forall storedOk added.
Proof.
  induction evs as [|ev evs IH]; intros app app'; simpl.
  - intros [= <-]. exists []. rewrite app_nil_r. repeat split; auto.
  - destruct (dispatch rev ev app) as [app1|] eqn:D; [|discriminate].
    intros R. destruct (IH app1 app' R) as (added & E & Hl & Hok).
    destruct (dispatch_spots rev ev app app1 D) as [Hs|(s & Hs_ok & Hs)];
      rewrite Hs in E.
    + exists added. repeat split; [exact E | lia | exact Hok].
    + exists (s :: added). rewrite <- app_assoc in E.
      repeat split; [exact E | simpl; lia | constructor; assumption].
Qed.

(** As long as the children of the dialog are used while it is open, the
    draft of the open dialog and the stored records keep both
    coordinates. *)
Lemma dispatch_coordinates (rev : Revision) (ev : Event) (app app' : App) :
  coordinatesKnown app ->
  arrivesWhileOpen ev app = true ->
  dispatch rev ev app = Some app' ->
  coordinatesKnown app'.
Proof.
  intros [Kd Ks] W. unfold dispatch. destruct (listening ev app) eqn:L.
  2:{ intros [= <-]. split; assumption. }
  clear L.
  destruct ev; simpl in W |- *;
    try (intros [= <-]; split; simpl; [|exact Ks]).
  - destruct rev; intros [= <-]; split; assumption.
  - destruct rev; intros [= <-]; split; assumption.
  - intros _. eexists. repeat split.
  - intros _. destruct (Kd W) as (d & -> & Hc). eexists. split; [reflexivity|].
    exact Hc.
  - intros _. destruct (Kd W) as (d & -> & Hc). eexists. split; [reflexivity|].
    exact Hc.
  - intros _. destruct (Kd W) as (d & -> & Hc). eexists. split; [reflexivity|].
    exact Hc.
  - discriminate.
  - discriminate.
  - destruct (Kd W) as (d & Hd & Hc).
    destruct (handleSaveSpot_cases now (state app))
      as [[_ (d' & s & Hd' & Hs & _ & _ & E)]|[_ E]]; rewrite E; simpl.
    + destruct (spotsEffect rev _ (refs app)); simpl; [|discriminate].
      intros [= <-]. simpl. split; [discriminate|].
      apply Forall_app. split; [exact Ks|]. constructor; [|constructor].
      rewrite Hd in Hd'. injection Hd' as <-.
      unfold spotOf in Hs.
      destruct (p_name d), (p_transparency d), (p_cleanliness d);
        try discriminate.
      injection Hs as <-. exact Hc.
    + intros [= <-]. split; assumption.
Qed.

Lemma run_coordinates (rev : Revision) (ctor : Construction)
  (evs : list Event) (app0 app : App) :
  mount rev ctor = Some app0 ->
  run rev evs app0 = Some app ->
  allWhileOpen rev evs app0 = true ->
  Forall (fun s => hasCoordinates (longitude s) (latitude s))
         (spots (state app)).
Proof.
  intros M R.
  assert (K : coordinatesKnown app0).
  { destruct (mount_initial rev ctor app0 M) as (_ & Hs & _ & Ho & _).
    split; [rewrite Ho; discriminate | rewrite Hs; constructor]. }
  clear M. revert app0 K R.
  induction evs as [|ev evs IH]; intros app0 K; simpl.
  - intros [= <-] _. exact (proj2 K).
  - destruct (dispatch rev ev app0) as [app1|] eqn:D; [|discriminate].
    intros R W. apply andb_prop in W. destruct W as [W1 W2].
    apply (IH app1); [|exact R|exact W2].
    exact (dispatch_coordinates rev ev app0 app1 K W1 D).
Qed.

(** ** The marker effect *)



(** ** The spot store *)

(** C6: the spot store is append-only.  Along every run the spot list at
    the end is the list at the start followed by the records added, at most
    one per event, so no record is changed or removed; and the handler of
    any single event either leaves the list as it is or appends one record
    at its end. *)
Theorem spot_store_append_only (rev : Revision) (evs : list Event)
  (app app' : App) :
  run rev evs app = Some app' ->
  (exists added,
      spots (state app') = spots (state app) ++ added
      /\ (length added <= length evs)%nat)
  /\ (forall ev a,
         spots (commit (snd (handle rev ev a)) (state a)) = spots (state a)
         \/ exists s,
             spots (commit (snd (handle rev ev a)) (state a))
             = spots (state a) ++ [s]).
Proof.
  intros R. split.
  - destruct (run_spots rev evs app app' R) as (added & E & Hl & _).
    exists added. split; assumption.
  - intros ev a.
    destruct (handle_spots rev ev a) as [[_ Hs]|(now & s & _ & _ & _ & Hs)].
    + left. exact Hs.
    + right. exists s. exact Hs.
Qed.

(** The session of 22 events leaves the three saved spots after the empty
    initial list. *)
Lemma spot_store_append_only_witness :
  (exists added,
      spots (state afterSession) = spots (state mounted) ++ added
      /\ (length added <= length session)%nat)
  /\ (forall ev a,
         spots (commit (snd (handle Rev2 ev a)) (state a)) = spots (state a)
         \/ exists s,
             spots (commit (snd (handle Rev2 ev a)) (state a))
             = spots (state a) ++ [s]).
Proof.
  assert (R : run Rev2 session mounted = Some afterSession)
    by (vm_compute; reflexivity).
  exact (spot_store_append_only Rev2 session mounted afterSession R).
Defined.

(** C9: every record that is ever in the spot list has a non-empty name
    and a transparency that is neither zero nor NaN.  The guard of the save
    tests truthiness: a draft whose name is the empty string or whose
    transparency equals zero is rejected, the state staying as it was, and
    so is the draft left by an emptied transparency field, which [Number]
    turns into [0]. *)
Theorem stored_spots_truthy (rev : Revision) (ctor : Construction)
  (evs : list Event) (app0 app : App) :
  mount rev ctor = Some app0 ->
  run rev evs app0 = Some app ->
  Forall storedOk (spots (state app))
  /\ (forall now st d,
         newSpot st = Some d ->
         p_name d = Some ""
         \/ (exists t, p_transparency d = Some t /\ (t =? 0) = true) ->
         save now st = st)
  /\ (forall now st,
         save now (commit (onTransparencyChange None st) st)
         = commit (onTransparencyChange None st) st).
Proof.
  intros M R. split; [|split].
  - destruct (mount_initial rev ctor app0 M) as (_ & Hs & _).
    destruct (run_spots rev evs app0 app R) as (added & E & _ & Hok).
    rewrite E, Hs. exact Hok.
  - intros now st d Hd H. apply save_rejected. rewrite Hd. simpl.
    destruct H as [Hn|(t & Ht & Hz)].
    + rewrite Hn. reflexivity.
    + rewrite Ht. unfold truthyNumber. rewrite Hz.
      apply andb_false_intro1, andb_false_r.
  - intros now st. apply save_rejected. simpl.
    apply andb_false_intro1, andb_false_r.
Qed.

(** The three records of the session are well formed, and the drafts with
    an empty name or the transparency 0 are rejected. *)
Lemma stored_spots_truthy_witness :
  Forall storedOk (spots (state afterSession))
  /\ save 7 editingNoName = editingNoName
  /\ save 7 editingZero = editingZero.
Proof.
  assert (R : run Rev2 session mounted = Some afterSession)
    by (vm_compute; reflexivity).
  pose proof (stored_spots_truthy Rev2 Constructed session mounted afterSession
                eq_refl R) as (H1 & H2 & _).
  split; [exact H1|]. split.
  - exact (H2 7%Z editingNoName draftNoName eq_refl (or_introl eq_refl)).
  - exact (H2 7%Z editingZero draftZero eq_refl
              (or_intror (ex_intro _ 0 (conj eq_refl eq_refl)))).
Defined.

(** ** Failures of the map *)

Lemma orElse_truthy (s fallback : string) :
  truthyString fallback = true -> truthyString (orElse s fallback) = true.
Proof. unfold orElse. destruct (truthyString s) eqn:E; auto. Qed.

(** The handlers read the spot list and the draft and nothing else: two
    states that agree on the spot list, the draft and the dialog flag are
    taken by any handler to states that agree on them again. *)
Lemma handle_reads_ui_only (rev : Revision) (ev : Event) (st1 st2 : State)
  (r1 r2 : Refs) :
  ui st1 = ui st2 ->
  ui (commit (snd (handle rev ev (mkApp st1 r1))) st1)
  = ui (commit (snd (handle rev ev (mkApp st2 r2))) st2).
Proof.
  destruct st1 as [l1 d1 o1 i1 e1], st2 as [l2 d2 o2 i2 e2].
  unfold ui. simpl. intros [= -> -> ->].
  destruct ev; try reflexivity; try (destruct rev; reflexivity).
  simpl. unfold handleSaveSpot. simpl.
  destruct d2 as [d|]; [|reflexivity].
  destruct (p_name d), (p_transparency d), (p_cleanliness d);
    try reflexivity.
  destruct (truthyString _ && truthyNumber _); reflexivity.
Qed.

(** * Further properties of the component *)

(** ** The fields of the dialog *)

(** X1: the three field handlers write one field each.  After an edit
    there is a draft; it holds the value given in the field edited (the
    number [Number] makes of the text, for the transparency) and, in every
    other field, what the draft held before, the coordinates among them; the
    spot list and the dialog flag are untouched.  Edits of different fields
    give the same state in either order, and a second edit of a field
    overrides the first. *)
Theorem field_edits_commute (st : State) (n n' : string)
  (t t' : option number) (c c' : Cleanliness) :
  (newSpot (editName n st)
   = Some (mkPartial (p_id (spread (newSpot st))) (Some n)
                     (p_transparency (spread (newSpot st)))
                     (p_cleanliness (spread (newSpot st)))
                     (p_longitude (spread (newSpot st)))
                     (p_latitude (spread (newSpot st))))
   /\ newSpot (editTransparency t st)
      = Some (mkPartial (p_id (spread (newSpot st)))
                        (p_name (spread (newSpot st)))
                        (Some (match t with Some x => x | None => 0 end))
                        (p_cleanliness (spread (newSpot st)))
                        (p_longitude (spread (newSpot st)))
                        (p_latitude (spread (newSpot st))))
   /\ newSpot (editCleanliness c st)
      = Some (mkPartial (p_id (spread (newSpot st)))
                        (p_name (spread (newSpot st)))
                        (p_transparency (spread (newSpot st)))
                        (Some c)
                        (p_longitude (spread (newSpot st)))
                        (p_latitude (spread (newSpot st)))))
  /\ editName n (editTransparency t st) = editTransparency t (editName n st)
  /\ editName n (editCleanliness c st) = editCleanliness c (editName n st)
  /\ editTransparency t (editCleanliness c st)
     = editCleanliness c (editTransparency t st)
  /\ editName n' (editName n st) = editName n' st
  /\ editTransparency t' (editTransparency t st) = editTransparency t' st
  /\ editCleanliness c' (editCleanliness c st) = editCleanliness c' st
  /\ (forall st',
         st' = editName n st \/ st' = editTransparency t st
         \/ st' = editCleanliness c st ->
         spots st' = spots st
         /\ isDialogOpen st' = isDialogOpen st
         /\ p_longitude (spread (newSpot st')) = p_longitude (spread (newSpot st))
         /\ p_latitude (spread (newSpot st')) = p_latitude (spread (newSpot st))).
Proof.
  destruct st as [l [d|] o i e]; repeat split; try reflexivity;
    try (destruct t; reflexivity);
    destruct H as [->|[->| ->]]; reflexivity.
Qed.

(** The name of the draft of "Lake A" edited: the draft holds the new name
    and keeps the rest; two edits in either order. *)
Lemma field_edits_commute_witness :
  newSpot (editName "Lake B" editingLakeA)
  = Some (mkPartial None (Some "Lake B") (Some 12) (Some high)
                    (Some 24.5) (Some 60.25))
  /\ editName "Lake B" (editTransparency (Some 4) editingLakeA)
     = editTransparency (Some 4) (editName "Lake B" editingLakeA)
  /\ spots (editName "Lake B" editingLakeA) = spots editingLakeA
  /\ isDialogOpen (editName "Lake B" editingLakeA) = isDialogOpen editingLakeA
  /\ p_longitude (spread (newSpot (editName "Lake B" editingLakeA)))
     = p_longitude (spread (newSpot editingLakeA))
  /\ p_latitude (spread (newSpot (editName "Lake B" editingLakeA)))
     = p_latitude (spread (newSpot editingLakeA)).
Proof.
  destruct (field_edits_commute editingLakeA "Lake B" "" (Some 4) None
              high low) as ((W & _ & _) & H1 & _ & _ & _ & _ & _ & H7).
  split; [exact W|]. split; [exact H1|].
  exact (H7 (editName "Lake B" editingLakeA) (or_introl eq_refl)).
Defined.

(** X2: what a field shows after its own edit is what was typed, except
    that a transparency of zero or NaN, like an emptied field, shows as
    empty; an edit leaves what the two other fields show as it was. *)
Theorem field_values_after_edit (st : State) (n : string)
  (t : option number) (c : Cleanliness) :
  nameValue (editName n st) = n
  /\ transparencyValue (editTransparency t st)
     = (if truthyNumber (Number t) then Some (Number t) else None)
  /\ cleanlinessValue (editCleanliness c st) = Some c
  /\ transparencyValue (editName n st) = transparencyValue st
  /\ cleanlinessValue (editName n st) = cleanlinessValue st
  /\ nameValue (editTransparency t st) = nameValue st
  /\ cleanlinessValue (editTransparency t st) = cleanlinessValue st
  /\ nameValue (editCleanliness c st) = nameValue st
  /\ transparencyValue (editCleanliness c st) = transparencyValue st.
Proof.
  destruct st as [l [d|] o i e]; repeat split; try reflexivity;
    unfold nameValue, orElse; simpl; destruct n; reflexivity.
Qed.

(** X3: the save passes its guard exactly when none of the three fields of
    the dialog shows as empty: then, and only then, a record is appended. *)
Theorem save_passes_iff_fields_filled (now : Z) (st : State) :
  (nameValue st <> "" /\ transparencyValue st <> None
   /\ cleanlinessValue st <> None)
  <-> exists s, spots (save now st) = spots st ++ [s].
Proof.
  assert (G : requiredTruthy (newSpot st) = true <->
              (nameValue st <> "" /\ transparencyValue st <> None
               /\ cleanlinessValue st <> None)).
  { unfold requiredTruthy, nameValue, transparencyValue, cleanlinessValue,
      orElse.
    destruct (newSpot st) as [d|];
      [|split; [discriminate | intros (H & _); contradiction]].
    destruct (p_name d) as [[|a n]|], (p_transparency d) as [t|],
        (p_cleanliness d) as [c|]; simpl;
      try destruct (truthyNumber t); simpl;
      split; try discriminate;
      try (intros (H1 & H2 & H3); congruence);
      intros _; repeat split; discriminate. }
  split.
  - intros H. apply G in H.
    destruct (save_accepted now st H) as (d & s & _ & _ & _ & _ & E).
    exists s. rewrite E. reflexivity.
  - intros [s E]. apply G.
    destruct (requiredTruthy (newSpot st)) eqn:R; [reflexivity|].
    rewrite (save_rejected now st R) in E.
    apply (f_equal (@length _)) in E. rewrite length_app in E. simpl in E. lia.
Qed.

(** X4: a save right after a save changes nothing: the first either was
    rejected, and the second is rejected alike, or it reset the draft, and
    the second finds none.  A double click on Save never stores a record
    twice. *)
Theorem save_idempotent (now now' : Z) (st : State) :
  save now' (save now st) = save now st.
Proof.
  destruct (requiredTruthy (newSpot st)) eqn:R.
  - destruct (save_accepted now st R) as (d & s & _ & _ & _ & _ & E).
    rewrite E. reflexivity.
  - rewrite (save_rejected now st R). apply save_rejected. exact R.
Qed.

(** ** From the click to the marker *)

(** X5: a click on the map at [(lng, lat)], the three fields filled with a
    non-empty name, a transparency other than zero and NaN and a
    cleanliness, then Save: whatever the state before, the run returns with
    exactly one record appended, which holds the values typed, the
    coordinates clicked and the clock reading as its id; the dialog is
    closed, the draft reset, and the map has one more marker for each spot
    of the new list. *)
Theorem click_fill_save (rev : Revision) (app : App) (m : MapWidget)
  (lng lat : number) (n : string) (t : number) (c : Cleanliness) (now : Z) :
  map (refs app) = Some m ->
  truthyString n = true ->
  truthyNumber t = true ->
  exists app',
    run rev (addSpot lng lat n t c now) app = Some app'
    /\ spots (state app')
       = spots (state app)
         ++ [mkSpot (toString now) n t c (Some lng) (Some lat)]
    /\ newSpot (state app') = None
    /\ isDialogOpen (state app') = false
    /\ attached app' = markers m ++ List.map markerOf (spots (state app')).
Proof.
  destruct app as [[l d o i e] [mc mp mr]]. simpl. intros -> Hn Ht.
  unfold addSpot, dispatch.
  cbn -[truthyNumber truthyString toString renderSpots].
  rewrite Hn, Ht.
  cbn -[truthyNumber truthyString toString renderSpots].
  eexists. split; [reflexivity|].
  cbn -[toString renderSpots]. repeat split.
  apply renderSpots_markers.
Qed.

(** The first spot of the session, on the freshly mounted component. *)
Lemma click_fill_save_witness :
  exists app',
    run Rev1 (addSpot 24.5 60.25 "Lake A" 12 high 1700000000000) mounted
    = Some app'
    /\ spots (state app')
       = spots (state mounted)
         ++ [mkSpot (toString 1700000000000) "Lake A" 12 high
                    (Some 24.5) (Some 60.25)]
    /\ newSpot (state app') = None
    /\ isDialogOpen (state app') = false
    /\ attached app' = markers newMap ++ List.map markerOf (spots (state app')).
Proof.
  exact (click_fill_save Rev1 mounted newMap 24.5 60.25 "Lake A" 12 high
           1700000000000 eq_refl eq_refl eq_refl).
Defined.

(** X6: in every run from the mount in which the fields and the buttons
    of the dialog are used only while the dialog is open, and not during the
    exit transition after a close, each stored record holds a longitude and
    a latitude, although the save does not test them: the dialog is opened
    by a click, which sets both, and the edits keep them. *)
Theorem stored_spots_have_coordinates (rev : Revision) (ctor : Construction)
  (evs : list Event) (app0 app : App) :
  mount rev ctor = Some app0 ->
  run rev evs app0 = Some app ->
  allWhileOpen rev evs app0 = true ->
  Forall (fun s => exists lng lat,
              longitude s = Some lng /\ latitude s = Some lat)
         (spots (state app)).
Proof.
  intros M R W. pose proof (run_coordinates rev ctor evs app0 app M R W) as H.
  eapply Forall_impl; [|exact H].
  intros s [Hlng Hlat].
  destruct (longitude s) as [lng|]; [|discriminate].
  destruct (latitude s) as [lat|]; [|discriminate].
  exists lng, lat. split; reflexivity.
Qed.

(** The three records of the session, whose every event comes while the
    dialog is open, have their coordinates. *)
Lemma stored_spots_have_coordinates_witness :
  Forall (fun s => exists lng lat,
              longitude s = Some lng /\ latitude s = Some lat)
         (spots (state afterSession)).
Proof.
  assert (R : run Rev2 session mounted = Some afterSession)
    by (vm_compute; reflexivity).
  assert (W : allWhileOpen Rev2 session mounted = true)
    by (vm_compute; reflexivity).
  exact (stored_spots_have_coordinates Rev2 Constructed session mounted
           afterSession eq_refl R W).
Defined.

(** Without that condition the record can lack them.  After a save has
    reset the draft, edits that arrive during the exit transition build a
    draft from [{...null}], and a save then stores a record whose
    coordinates are undefined. *)
Lemma late_edits_store_no_coordinates (rev : Revision) (app : App)
  (m : MapWidget) (n : string) (t : number) (c : Cleanliness) (now : Z) :
  map (refs app) = Some m ->
  newSpot (state app) = None ->
  dialogOpened (state app) = true ->
  truthyString n = true ->
  truthyNumber t = true ->
  exists app',
    run rev [ NameChange n; TransparencyChange (Some t); CleanlinessChange c;
              SaveClick now ] app = Some app'
    /\ spots (state app')
       = spots (state app) ++ [mkSpot (toString now) n t c None None].
Proof.
  destruct app as [[l d o i e] [mc mp mr]]. simpl.
  intros -> -> Ho Hn Ht. unfold dispatch, listening.
  cbn [state]. rewrite Ho.
  cbn -[truthyNumber truthyString toString renderSpots dialogOpened].
  unfold dialogOpened at 1. cbn [isDialogOpen newSpot spots].
  rewrite orb_true_r.
  cbn -[truthyNumber truthyString toString renderSpots dialogOpened].
  unfold dialogOpened at 1. cbn [isDialogOpen newSpot spots].
  rewrite orb_true_r.
  cbn -[truthyNumber truthyString toString renderSpots dialogOpened].
  unfold dialogOpened at 1. cbn [isDialogOpen newSpot spots].
  rewrite orb_true_r.
  cbn -[truthyNumber truthyString toString renderSpots dialogOpened].
  rewrite Hn, Ht.
  cbn -[toString renderSpots]. eexists. split; reflexivity.
Qed.

(** ** The markers on the map, one by one *)






(** ** The ids of the records *)

Lemma toString_injective (a b : Z) : toString a = toString b -> a = b.
Proof.
  unfold toString. intros H.
  assert (P : forall z, NilZero.int_of_string
                          (NilZero.string_of_int (Z.to_int z))
                        = Some (Z.to_int z)).
  { intros z. apply NilZero.isi; destruct z; simpl; try discriminate;
      intros [= E]; exact (DecimalPos.Unsigned.to_uint_nonnil _ E). }
  apply DecimalZ.to_int_inj.
  pose proof (P a) as Pa. rewrite H, P in Pa. injection Pa as Pa.
  symmetry. exact Pa.
Qed.

Lemma dispatch_ids (rev : Revision) (ev : Event) (app app' : App) :
  dispatch rev ev app = Some app' ->
  List.map id (spots (state app'))
  = List.map id (spots (state app))
    ++ List.map toString
         match ev with
         | SaveClick now => if savesSpot ev app then [now] else []
         | _ => []
         end.
Proof.
  unfold dispatch. destruct (listening ev app) eqn:L.
  2:{ intros [= <-]. rewrite (savesSpot_not_listening ev app L).
      destruct ev; simpl; rewrite app_nil_r; reflexivity. }
  destruct ev; simpl;
    try (intros [= <-]; simpl; rewrite app_nil_r; reflexivity);
    try (destruct rev; intros [= <-]; simpl; rewrite app_nil_r; reflexivity).
  simpl in L. rewrite L. simpl.
  destruct (handleSaveSpot_cases now (state app))
    as [[_ (d & s & _ & Hs & _ & _ & E)]|[_ E]]; rewrite E; simpl.
  - destruct (spotsEffect rev _ (refs app)); simpl; [|discriminate].
    intros [= <-]. simpl. rewrite map_app. simpl.
    unfold spotOf in Hs.
    destruct (p_name d), (p_transparency d), (p_cleanliness d);
      try discriminate.
    injection Hs as <-. reflexivity.
  - intros [= <-]. rewrite app_nil_r. reflexivity.
Qed.

Lemma run_ids (rev : Revision) (evs : list Event) :
  forall app app',
    run rev evs app = Some app' ->
    List.map id (spots (state app'))
    = List.map id (spots (state app))
      ++ List.map toString (saveClocks rev evs app).
Proof.
  induction evs as [|ev evs IH]; intros app app'; simpl.
  - intros [= <-]. rewrite app_nil_r. reflexivity.
  - destruct (dispatch rev ev app) as [app1|] eqn:D; [|discriminate].
    intros R. rewrite (IH app1 app' R), (dispatch_ids rev ev app app1 D).
    rewrite map_app, app_assoc. reflexivity.
Qed.

(** X8: the ids of the stored records are the decimal numerals of the
    clock readings of the successful saves, in order.  Different readings
    give different ids, so the ids are pairwise distinct exactly when no two
    successful saves read the same millisecond. *)
Theorem ids_are_save_clocks (rev : Revision) (ctor : Construction)
  (evs : list Event) (app0 app : App) :
  mount rev ctor = Some app0 ->
  run rev evs app0 = Some app ->
  List.map id (spots (state app))
  = List.map toString (saveClocks rev evs app0)
  /\ (NoDup (List.map id (spots (state app)))
      <-> NoDup (saveClocks rev evs app0)).
Proof.
  intros M R.
  destruct (mount_initial rev ctor app0 M) as (_ & Hs & _).
  pose proof (run_ids rev evs app0 app R) as E. rewrite Hs in E. simpl in E.
  split; [exact E|]. rewrite E. split.
  - apply NoDup_map_inv.
  - apply NoDup_map_NoDup_ForallPairs.
    intros a b _ _. apply toString_injective.
Qed.

(** The three saves of the session read three different milliseconds. *)
Lemma ids_are_save_clocks_witness :
  List.map id (spots (state afterSession))
  = List.map toString [1700000000000; 1700000001000; 1700000003000]%Z
  /\ (NoDup (List.map id (spots (state afterSession)))
      <-> NoDup [1700000000000; 1700000001000; 1700000003000]%Z).
Proof.
  assert (R : run Rev2 session mounted = Some afterSession)
    by (vm_compute; reflexivity).
  exact (ids_are_save_clocks Rev2 Constructed session mounted afterSession
           eq_refl R).
Defined.

(** ** The status of the map *)

(** What a turn does to the refs and to the map status. *)
Lemma dispatch_status (rev : Revision) (ev : Event) (app app' : App) :
  dispatch rev ev app = Some app' ->
  isSome (map (refs app')) = isSome (map (refs app))
  /\ mapContainer (refs app') = mapContainer (refs app)
  /\ mapInitialized (state app')
     = mapInitialized (state app) || loads rev ev app
  /\ mapInitializedRef (refs app')
     = mapInitializedRef (refs app) || loads rev ev app
  /\ (if reportsError rev ev app
      then exists msg, mapError (state app') = Some msg /\ msg <> ""
      else mapError (state app') = mapError (state app)).
Proof.
  unfold dispatch, loads, reportsError.
  destruct (listening ev app) eqn:L.
  - destruct ev; simpl in L |- *.
    + destruct (map (refs app)) eqn:M; [|discriminate].
      destruct rev; intros [= <-]; simpl;
        rewrite ?M, ?orb_false_r, ?orb_true_r; repeat split; reflexivity.
    + destruct (map (refs app)) eqn:M; [|discriminate].
      destruct rev; intros [= <-]; simpl;
        rewrite ?M, ?orb_false_r; repeat split; try reflexivity.
      eexists. split; [reflexivity|].
      apply truthyString_true, orElse_truthy. reflexivity.
    + intros [= <-]; destruct rev; simpl; rewrite ?orb_false_r;
        repeat split; reflexivity.
    + intros [= <-]; destruct rev; simpl; rewrite ?orb_false_r;
        repeat split; reflexivity.
    + intros [= <-]; destruct rev; simpl; rewrite ?orb_false_r;
        repeat split; reflexivity.
    + intros [= <-]; destruct rev; simpl; rewrite ?orb_false_r;
        repeat split; reflexivity.
    + intros [= <-]; destruct rev; simpl; rewrite ?orb_false_r;
        repeat split; reflexivity.
    + intros [= <-]; destruct rev; simpl; rewrite ?orb_false_r;
        repeat split; reflexivity.
    + destruct (handleSaveSpot_cases now (state app))
        as [[_ (d & s & _ & _ & _ & _ & E)]|[_ E]]; rewrite E; simpl.
      * unfold spotsEffect.
        destruct rev, (map (refs app)) eqn:M;
          try destruct (spots (state app) ++ [s]);
          simpl; try discriminate; intros [= <-]; simpl;
          rewrite ?M, ?orb_false_r; repeat split; reflexivity.
      * intros [= <-]; destruct rev; simpl; rewrite ?orb_false_r;
          repeat split; reflexivity.
  - intros [= <-].
    destruct ev; simpl in L |- *;
      try (destruct (map (refs app)) eqn:M; [discriminate|]);
      destruct rev; simpl; rewrite ?orb_false_r; repeat split; reflexivity.
Qed.

Lemma run_status (rev : Revision) (evs : list Event) :
  forall app app',
    run rev evs app = Some app' ->
    isSome (map (refs app')) = isSome (map (refs app))
    /\ mapContainer (refs app') = mapContainer (refs app)
    /\ mapInitialized (state app')
       = mapInitialized (state app) || mapHandles rev app isMapLoad evs
    /\ mapInitializedRef (refs app')
       = mapInitializedRef (refs app) || mapHandles rev app isMapLoad evs
    /\ isSome (mapError (state app'))
       = isSome (mapError (state app)) || mapHandles rev app isMapError evs.
Proof.
  induction evs as [|ev evs IH]; intros app app'; simpl.
  - intros [= <-]. unfold mapHandles. simpl.
    destruct rev; rewrite ?andb_false_r, ?orb_false_r; repeat split.
  - destruct (dispatch rev ev app) as [app1|] eqn:D; [|discriminate].
    intros R.
    destruct (IH app1 app' R) as (Hm & Hc & Hi & Hr & He).
    destruct (dispatch_status rev ev app app1 D)
      as (Hm1 & Hc1 & Hi1 & Hr1 & He1).
    rewrite Hm, Hc, Hi, Hr, He, Hm1, Hc1, Hi1, Hr1.
    unfold mapHandles, loads, reportsError in *. rewrite Hm1.
    repeat split.
    + destruct rev, ev; simpl; rewrite ?orb_false_r; try reflexivity.
      destruct (isSome (map (refs app))), (mapInitialized (state app));
        reflexivity.
    + destruct rev, ev; simpl; rewrite ?orb_false_r; try reflexivity.
      destruct (isSome (map (refs app))), (mapInitializedRef (refs app));
        reflexivity.
    + destruct rev, ev; simpl in *; try (rewrite He1; reflexivity).
      destruct (isSome (map (refs app))); simpl.
      * destruct He1 as (msg & -> & _). simpl. rewrite orb_true_r.
        reflexivity.
      * rewrite He1. reflexivity.
Qed.

(** X9: the status the component keeps of its map.  In every state reached
    from the mount the [mapInitialized] state and the [mapInitializedRef]
    ref hold the same value; it is true exactly when, in the second
    revision, the map was constructed and a [load] event has come, and a map
    then exists.  An error is stored exactly when, in the second revision,
    the constructor threw or an [error] event has come.  The first revision
    never sets either. *)
Theorem map_status_from_mount (rev : Revision) (ctor : Construction)
  (evs : list Event) (app0 app : App) :
  mount rev ctor = Some app0 ->
  run rev evs app0 = Some app ->
  mapInitialized (state app) = mapInitializedRef (refs app)
  /\ mapInitialized (state app)
     = match rev, ctor with
       | Rev2, Constructed => existsb isMapLoad evs
       | _, _ => false
       end
  /\ (mapInitialized (state app) = true -> map (refs app) <> None)
  /\ isSome (mapError (state app))
     = match rev, ctor with
       | Rev2, Constructed => existsb isMapError evs
       | Rev2, Throws _ => true
       | Rev1, _ => false
       end.
Proof.
  intros M R.
  destruct (run_status rev evs app0 app R) as (Hm & _ & Hi & Hr & He).
  rewrite Hi, Hr, He. unfold mapHandles.
  destruct rev, ctor as [|[msg|]]; simpl in M; try discriminate;
    injection M as <-; simpl in *; rewrite ?orb_false_r;
    repeat split; try discriminate.
  intros _ H. rewrite H in Hm. discriminate.
Qed.

(** In the session no [load] and no [error] event occurs. *)
Lemma map_status_from_mount_witness :
  mapInitialized (state afterSession) = mapInitializedRef (refs afterSession)
  /\ mapInitialized (state afterSession) = false
  /\ (mapInitialized (state afterSession) = true ->
      map (refs afterSession) <> None)
  /\ isSome (mapError (state afterSession)) = false.
Proof.
  assert (R : run Rev2 session mounted = Some afterSession)
    by (vm_compute; reflexivity).
  exact (map_status_from_mount Rev2 Constructed session mounted afterSession
           eq_refl R).
Defined.

(** X10: nothing resets the status of the map.  Along any run from any
    state, an error message that is stored stays stored (it may be replaced
    by a later one), also when the map loads afterwards, and
    [mapInitialized], once true, stays true. *)
Theorem map_status_never_reset (rev : Revision) (evs : list Event)
  (app app' : App) :
  run rev evs app = Some app' ->
  (mapError (state app) <> None -> mapError (state app') <> None)
  /\ (mapInitialized (state app) = true ->
      mapInitialized (state app') = true).
Proof.
  intros R.
  destruct (run_status rev evs app app' R) as (_ & _ & Hi & _ & He).
  split.
  - intros H. destruct (mapError (state app)); [|contradiction].
    simpl in He. destruct (mapError (state app')); discriminate.
  - intros H. rewrite Hi, H. reflexivity.
Qed.

(** The error and the loaded flag of [loadedWithError] outlive the
    session. *)
Lemma map_status_never_reset_witness :
  mapError (state loadedWithErrorAfterSession) <> None
  /\ mapInitialized (state loadedWithErrorAfterSession) = true.
Proof.
  assert (R : run Rev2 session loadedWithError = Some loadedWithErrorAfterSession)
    by (vm_compute; reflexivity).
  destruct (map_status_never_reset Rev2 session loadedWithError
              loadedWithErrorAfterSession R) as [H1 H2].
  split; [apply H1; discriminate | apply H2; reflexivity].
Defined.

(** ** A map that could not be constructed *)

Lemma dispatch_without_map (rev : Revision) (ev : Event) (app : App) :
  map (refs app) = None ->
  dialogOpened (state app) = false ->
  dispatch rev ev app = Some app.
Proof.
  intros M O. unfold dispatch.
  replace (listening ev app) with false; [reflexivity|].
  destruct ev; simpl; rewrite ?M, ?O; reflexivity.
Qed.

(** X11: when the constructor of the map throws, the first revision does
    not survive the mount, since nothing catches the exception.  The second
    mounts without a map and with the dialog closed, and stays exactly so:
    no listener is registered and the dialog cannot open, so every run of
    events leaves the state and the refs as the mount left them, and no
    spot can ever be added. *)
Theorem failed_construction_is_final (e : Thrown) (evs : list Event) :
  mount Rev1 (Throws e) = None
  /\ exists app0,
      mount Rev2 (Throws e) = Some app0
      /\ run Rev2 evs app0 = Some app0
      /\ map (refs app0) = None
      /\ isDialogOpen (state app0) = false
      /\ spots (state app0) = [].
Proof.
  split; [reflexivity|].
  eexists. split; [reflexivity|]. split; [|repeat split].
  induction evs as [|ev evs IH]; simpl; [reflexivity|].
  rewrite dispatch_without_map by reflexivity. exact IH.
Qed.

(** ** Mounting again *)

(** X12: the teardown of the map effect followed by a second run of the
    effect, from any state reached from the mount.  In the first revision
    the teardown removes the map but leaves it in [map.current], so that the
    second run constructs nothing and the component keeps the removed map.
    In the second revision the second run constructs a new map, without
    markers, in any case, while the teardown has removed the old one only
    if its [load] event had come. *)
Theorem remount_after_run (rev : Revision) (ctor : Construction)
  (evs : list Event) (app0 app : App) :
  mount rev ctor = Some app0 ->
  run rev evs app0 = Some app ->
  match rev with
  | Rev1 =>
      forall ctor', remount Rev1 ctor' (refs app) = (Some (refs app, []), true)
  | Rev2 =>
      remount Rev2 Constructed (refs app)
      = (Some (mkRefs true (Some newMap) false, []), mapInitialized (state app))
  end.
Proof.
  intros M R.
  destruct (run_status rev evs app0 app R) as (Hm & Hc & Hi & Hr & _).
  unfold mapHandles in *.
  destruct rev.
  - destruct ctor; simpl in M; [|discriminate]. injection M as <-.
    simpl in Hm. intros ctor'. unfold remount, cleanup, initEffect1.
    destruct (map (refs app)); [reflexivity | discriminate].
  - assert (C : mapContainer (refs app) = true).
    { rewrite Hc. destruct ctor as [|[msg|]]; simpl in M; injection M as <-;
        reflexivity. }
    assert (I : mapInitializedRef (refs app) = mapInitialized (state app)).
    { rewrite Hi, Hr.
      destruct ctor as [|[msg|]]; simpl in M; injection M as <-; reflexivity. }
    assert (N : map (refs app) = None -> mapInitialized (state app) = false).
    { intros N. rewrite N in Hm. rewrite Hi.
      destruct ctor as [|[msg|]]; simpl in M; injection M as <-;
        simpl in *; try discriminate; reflexivity. }
    unfold remount, cleanup, initializeMap. rewrite I.
    destruct (map (refs app)) as [m|].
    + destruct (mapInitialized (state app)) eqn:Ei; simpl; rewrite ?I, ?Ei, C;
        reflexivity.
    + rewrite (N eq_refl) in *. simpl. rewrite I, C. reflexivity.
Qed.

(** After the session, whose map has not loaded, a second mount replaces
    the map that carries the six markers by a new one and removes
    nothing. *)
Lemma remount_after_run_witness :
  remount Rev2 Constructed (refs afterSession)
  = (Some (mkRefs true (Some newMap) false, []), false).
Proof.
  assert (R : run Rev2 session mounted = Some afterSession)
    by (vm_compute; reflexivity).
  exact (remount_after_run Rev2 Constructed session mounted afterSession
           eq_refl R).
Defined.

(** ** The order of the colours *)

Lemma SFltb_leb_trans (a x y : spec_float) :
  SFltb a x = true -> SFleb x y = true -> SFltb a y = true.
Proof.
  unfold SFltb, SFleb.
  destruct a as [sa|sa| |sa ma ea], x as [sx|sx| |sx mx ex],
           y as [sy|sy| |sy my ey]; simpl;
    try discriminate; try reflexivity;
    try (destruct sa; try discriminate; try reflexivity);
    try (destruct sx; try discriminate; try reflexivity);
    try (destruct sy; try discriminate; try reflexivity).
  all: rewrite ?Pos.compare_cont_spec; simpl.
  all: destruct (Z.compare_spec ea ex), (Z.compare_spec ex ey),
         (Z.compare_spec ea ey); simpl; try discriminate; try reflexivity;
       try lia.
  all: destruct (Pos.compare_spec ma mx), (Pos.compare_spec mx my),
         (Pos.compare_spec ma my); simpl; try discriminate; try reflexivity;
       try lia.
Qed.

Lemma gt_le_trans (a x y : number) :
  gt x a = true -> le x y = true -> gt y a = true.
Proof.
  unfold gt, le. rewrite !ltb_spec, leb_spec. apply SFltb_leb_trans.
Qed.

(** X13: the colour of any number, NaN and the infinities included, is
    one of the three; and the colour follows the order of the
    transparencies: when [x <= y], the colour of [y] is the colour of [x] or
    one further from red towards green. *)
Theorem color_monotone (x y : number) :
  In (getColorByTransparency x) [red; yellow; green]
  /\ (le x y = true ->
      (colorRank (getColorByTransparency x)
       <= colorRank (getColorByTransparency y))%nat).
Proof.
  unfold getColorByTransparency. split.
  - destruct (gt x 10); [|destruct (gt x 5)]; simpl; auto.
  - intros L. destruct (gt x 10) eqn:X10.
    + rewrite (gt_le_trans 10 x y X10 L). apply Nat.le_refl.
    + destruct (gt x 5) eqn:X5.
      * rewrite (gt_le_trans 5 x y X5 L).
        destruct (gt y 10); vm_compute; lia.
      * destruct (gt y 10); [|destruct (gt y 5)]; vm_compute; lia.
Qed.

(** NaN has one of the three colours; 7 is not above 12, and yellow comes
    before green. *)
Lemma color_monotone_witness :
  In (getColorByTransparency nan) [red; yellow; green]
  /\ (colorRank (getColorByTransparency 7%float)
      <= colorRank (getColorByTransparency 12%float))%nat.
Proof.
  split.
  - exact (proj1 (color_monotone nan 0)).
  - exact (proj2 (color_monotone 7 12) eq_refl).
Defined.

(** ** The two revisions side by side *)




(** ** Failures of the map, and what stays usable *)




